(** * runtime/go_tls.h: the thread-local-storage accessor macros

    The header is nineteen lines of assembler-preprocessor text.  It is
    embedded here as the text itself ([go_tls_h], one string per line), run
    through a model of the preprocessor ([Cpp]), and the instruction text the
    macros expand to is parsed ([Asm]) and executed on a small x86 machine
    ([Machine], [Threads], and [Faults] for traps).  [Call] reads a macro
    call in a line of source, and [include_then] the file where it is
    included. *)

From Stdlib Require Import String Ascii List ZArith Lia Bool.
Import ListNotations.
Open Scope string_scope.

(** ** Lexing one line of assembler source

    The header is input of the assembler's preprocessor, which the header
    itself does not contain; [Lex] and [Cpp] interpret the part of that
    language the header is written in: [//] comments, [#ifdef], [#endif]
    and [#define] with or without parameters. *)

Module Lex.

Definition is_space (c : ascii) : bool :=
  let n := nat_of_ascii c in
  (n =? 32)%nat || (n =? 9)%nat.

(** Letters, digits, the underscore, and every non-ASCII byte (the
    assembler's identifiers may hold Unicode letters). *)
Definition is_ident_char (c : ascii) : bool :=
  let n := nat_of_ascii c in
  ((48 <=? n)%nat && (n <=? 57)%nat)
  || ((65 <=? n)%nat && (n <=? 90)%nat)
  || ((97 <=? n)%nat && (n <=? 122)%nat)
  || (n =? 95)%nat
  || (128 <=? n)%nat.

Definition flush (cur : string) (acc : list string) : list string :=
  match cur with
  | EmptyString => acc
  | _ => cur :: acc
  end.

(** [scan s cur]: the tokens of [s], [cur] being the identifier read so far.
    A [//] comment runs to the end of the line. *)
Fixpoint scan (s cur : string) : list string :=
  match s with
  | EmptyString => flush cur []
  | String c s' =>
      if is_ident_char c then scan s' (cur ++ String c EmptyString)
      else if is_space c then flush cur (scan s' EmptyString)
      else match c, s' with
           | "/"%char, String "/"%char _ => flush cur []
           | _, _ => flush cur (String c EmptyString :: scan s' EmptyString)
           end
  end.

Definition tokens (s : string) : list string := scan s EmptyString.

Fixpoint skip_space (s : string) : string :=
  match s with
  | EmptyString => EmptyString
  | String c s' => if is_space c then skip_space s' else s
  end.

(** The longest identifier prefix, and what follows it. *)
Fixpoint span_ident (s : string) : string * string :=
  match s with
  | EmptyString => (EmptyString, EmptyString)
  | String c s' =>
      if is_ident_char c
      then let (a, b) := span_ident s' in (String c a, b)
      else (EmptyString, s)
  end.

(** The text before the first closing parenthesis, and the text after it. *)
Fixpoint until_rparen (s : string) : option (string * string) :=
  match s with
  | EmptyString => None
  | String c s' =>
      match c with
      | ")"%char => Some (EmptyString, s')
      | _ => match until_rparen s' with
             | Some (a, b) => Some (String c a, b)
             | None => None
             end
      end
  end.

End Lex.

(** ** The preprocessor *)

Module Cpp.

Record macro := Macro {
  params : option (list string);   (* [None]: object-like, [Some ps]: function-like *)
  body : list string
}.

Inductive directive :=
| DIfdef (sym : string)
| DEndif
| DDefine (name : string) (m : macro)
| DText (toks : list string)
| DBad.

Definition not_comma (t : string) : bool := negb (t =? ",").

(** A macro is function-like exactly when its name is followed by an opening
    parenthesis with no space between. *)
Definition parse_define (rest : string) : directive :=
  let (name, rest2) := Lex.span_ident (Lex.skip_space rest) in
  if name =? "" then DBad
  else match rest2 with
       | String "("%char rest3 =>
           match Lex.until_rparen rest3 with
           | Some (ps, b) =>
               DDefine name (Macro (Some (filter not_comma (Lex.tokens ps))) (Lex.tokens b))
           | None => DBad
           end
       | _ => DDefine name (Macro None (Lex.tokens rest2))
       end.

Definition parse_line (l : string) : directive :=
  match Lex.skip_space l with
  | String "#"%char rest =>
      let (word, rest1) := Lex.span_ident rest in
      if word =? "ifdef" then
        match Lex.tokens rest1 with
        | [sym] => DIfdef sym
        | _ => DBad
        end
      else if word =? "endif" then
        match Lex.tokens rest1 with
        | [] => DEndif
        | _ => DBad
        end
      else if word =? "define" then parse_define rest1
      else DBad
  | other => DText (Lex.tokens other)
  end.

Inductive cpp_error :=
| BadDirective
| Redefinition (name : string)
| EndifWithoutIf
| UnterminatedIf.

Inductive result (A : Type) :=
| OK (a : A)
| Err (e : cpp_error).
Arguments OK {A} a.
Arguments Err {A} e.

Definition env := list (string * macro).

Fixpoint lookup (name : string) (e : env) : option macro :=
  match e with
  | [] => None
  | (n, m) :: e' => if n =? name then Some m else lookup name e'
  end.

(** The symbols given to the build on the command line ([-D GOARCH_amd64]). *)
Definition predefined (D : list string) (sym : string) : bool :=
  existsb (String.eqb sym) D.

Definition is_defined (pre : string -> bool) (e : env) (sym : string) : bool :=
  pre sym ||
  match lookup sym e with
  | Some _ => true
  | None => false
  end.

Definition active (conds : list bool) : bool := forallb (fun b => b) conds.

(** [run pre ds conds e]: the directives [ds] executed in order; [pre] tells
    the symbols defined on the command line, [conds] is the stack of the
    enclosing [#ifdef]s, [e] the macros defined so far by the file.  Defining
    a name twice is an error. *)
Fixpoint run (pre : string -> bool) (ds : list directive) (conds : list bool) (e : env)
  : result env :=
  match ds with
  | [] =>
      match conds with
      | [] => OK e
      | _ :: _ => Err UnterminatedIf
      end
  | d :: ds' =>
      match d with
      | DIfdef sym => run pre ds' (is_defined pre e sym :: conds) e
      | DEndif =>
          match conds with
          | [] => Err EndifWithoutIf
          | _ :: cs => run pre ds' cs e
          end
      | DDefine name m =>
          if active conds
          then if is_defined pre e name
               then Err (Redefinition name)
               else run pre ds' conds (e ++ [(name, m)])%list
          else run pre ds' conds e
      | DText _ => run pre ds' conds e
      | DBad => if active conds then Err BadDirective else run pre ds' conds e
      end
  end.

Definition preprocess (D : list string) (lines : list string) : result env :=
  run (predefined D) (map parse_line lines) [] [].

(** Replacing the parameters of a macro body by the arguments of a call. *)
Fixpoint bind (ps : list string) (args : list (list string)) : option (list (string * list string)) :=
  match ps, args with
  | [], [] => Some []
  | p :: ps', a :: args' =>
      match bind ps' args' with
      | Some b => Some ((p, a) :: b)
      | None => None
      end
  | _, _ => None
  end.

Fixpoint arg_of (t : string) (b : list (string * list string)) : option (list string) :=
  match b with
  | [] => None
  | (p, a) :: b' => if p =? t then Some a else arg_of t b'
  end.

(** A parameter whose argument is empty stays in the text as it is. *)
Definition subst (b : list (string * list string)) (toks : list string) : list string :=
  flat_map (fun t => match arg_of t b with
                     | Some (x :: a) => x :: a
                     | _ => [t]
                     end) toks.

(** [expand e name args]: the text that the call [name(args)] is replaced by;
    a call has at least one argument, which may be empty.  [None] when
    [name] is no function-like macro, or when the number of arguments is
    not the number of its parameters, which stops the build. *)
Definition expand (e : env) (name : string) (args : list (list string)) : option (list string) :=
  match lookup name e with
  | Some (Macro (Some ps) b) =>
      match bind ps args with
      | Some bd => Some (subst bd b)
      | None => None
      end
  | _ => None
  end.

End Cpp.

(** ** The header *)

Definition TAB : string := String (ascii_of_nat 9) EmptyString.

(** The lines of the file.  The last has no line end after it (see
    [go_tls_h_text]); that plays no part in what the directives define, and
    decides what may follow an inclusion of the file ([include_then]). *)
Definition go_tls_h : list string :=
  [ "// Copyright 2014 The Go Authors. All rights reserved.";
    "// Use of this source code is governed by a BSD-style";
    "// license that can be found in the LICENSE file.";
    "";
    "#ifdef GOARCH_arm";
    "#define LR R14";
    "#endif";
    "";
    "// 注释：(AMD64)定义get_tls为获取TLS寄存器数据";
    "#ifdef GOARCH_amd64";
    "#define" ++ TAB ++ "get_tls(r)" ++ TAB ++ "MOVQ TLS, r";
    "#define" ++ TAB ++ "g(r)" ++ TAB ++ "0(r)(TLS*1)";
    "#endif";
    "";
    "// 注释：(AMD32)定义get_tls为获取TLS寄存器数据";
    "#ifdef GOARCH_386";
    "#define" ++ TAB ++ "get_tls(r)" ++ TAB ++ "MOVL TLS, r";
    "#define" ++ TAB ++ "g(r)" ++ TAB ++ "0(r)(TLS*1)";
    "#endif" ].


(** ** The instructions and operands the macros expand to *)

Module Asm.

(** The two architectures for which the header defines the accessors. *)
Inductive arch := amd64 | i386.

Definition tag (a : arch) : string :=
  match a with
  | amd64 => "GOARCH_amd64"
  | i386 => "GOARCH_386"
  end.

(** Modelled from the spec: the width of a pointer (and of a general-purpose
    register) on each architecture; the header does not state it. *)
Definition ptr_bits (a : arch) : Z :=
  match a with
  | amd64 => 64
  | i386 => 32
  end.

Inductive reg :=
| AX | CX | DX | BX | SP | BP | SI | DI
| R8 | R9 | R10 | R11 | R12 | R13 | R14 | R15.

Definition all_regs : list reg :=
  [AX; CX; DX; BX; SP; BP; SI; DI; R8; R9; R10; R11; R12; R13; R14; R15].

Definition reg_name (r : reg) : string :=
  match r with
  | AX => "AX" | BX => "BX" | CX => "CX" | DX => "DX"
  | SI => "SI" | DI => "DI" | BP => "BP" | SP => "SP"
  | R15 => "R15" | R14 => "R14" | R13 => "R13" | R12 => "R12"
  | R11 => "R11" | R10 => "R10" | R9 => "R9" | R8 => "R8"
  end.

Definition reg_eq_dec (r1 r2 : reg) : {r1 = r2} + {r1 <> r2}.
Proof. decide equality. Defined.

(** The 386 has the first eight registers only. *)
Definition has_reg (a : arch) (r : reg) : bool :=
  match a with
  | amd64 => true
  | i386 =>
      match r with
      | AX | CX | DX | BX | SP | BP | SI | DI => true
      | _ => false
      end
  end.

Definition reg_of_name (a : arch) (s : string) : option reg :=
  find (fun r => (reg_name r =? s) && has_reg a r) all_regs.

Inductive index :=
| ITls                  (* the [TLS] pseudo-register *)
| IReg (r : reg).

Inductive operand :=
| OTls
| OReg (r : reg)
| OMem (disp : Z) (base : reg) (idx : option (index * Z)).

Inductive instr :=
| Mov (bits : Z) (src dst : operand).

Definition digit (c : ascii) : option Z :=
  let n := nat_of_ascii c in
  if ((48 <=? n)%nat && (n <=? 57)%nat) then Some (Z.of_nat (n - 48)) else None.

Fixpoint parse_digits (s : string) (acc : Z) : option Z :=
  match s with
  | EmptyString => Some acc
  | String c s' =>
      match digit c with
      | Some d => parse_digits s' (10 * acc + d)
      | None => None
      end
  end.

Definition parse_num (s : string) : option Z :=
  match s with
  | EmptyString => None
  | _ => parse_digits s 0
  end.

Definition parse_index (a : arch) (i s : string) : option (index * Z) :=
  match parse_num s with
  | None => None
  | Some k =>
      if i =? "TLS" then (if (k =? 1)%Z then Some (ITls, k) else None)
      else match reg_of_name a i with
           | Some r =>
               if ((k =? 1) || (k =? 2) || (k =? 4) || (k =? 8))%Z
               then Some (IReg r, k) else None
           | None => None
           end
  end.

Definition parse_base (a : arch) (d b : string) : option (Z * reg) :=
  match parse_num d, reg_of_name a b with
  | Some z, Some r => Some (z, r)
  | _, _ => None
  end.

(** [TLS], a register, [disp(base)] or [disp(base)(index*scale)]. *)
Definition parse_operand (a : arch) (toks : list string) : option operand :=
  match toks with
  | [t] =>
      if t =? "TLS" then Some OTls
      else option_map OReg (reg_of_name a t)
  | [d; l1; b; r1] =>
      if (l1 =? "(") && (r1 =? ")") then
        option_map (fun p => OMem (fst p) (snd p) None) (parse_base a d b)
      else None
  | [d; l1; b; r1; l2; i; st; s; r2] =>
      if (l1 =? "(") && (r1 =? ")") && (l2 =? "(") && (st =? "*") && (r2 =? ")") then
        match parse_base a d b, parse_index a i s with
        | Some p, Some ix => Some (OMem (fst p) (snd p) (Some ix))
        | _, _ => None
        end
      else None
  | _ => None
  end.

Fixpoint split_comma (toks : list string) : option (list string * list string) :=
  match toks with
  | [] => None
  | t :: ts =>
      if t =? "," then Some ([], ts)
      else match split_comma ts with
           | Some (l, r) => Some (t :: l, r)
           | None => None
           end
  end.

(** Modelled from the spec: the operand size of the two move mnemonics the
    header uses. *)
Definition mov_bits (mn : string) : option Z :=
  if mn =? "MOVL" then Some 32%Z
  else if mn =? "MOVQ" then Some 64%Z
  else None.

(** [TLS] can only be loaded into a register, and at most one operand of a
    move is in memory. *)
Definition operands_ok (src dst : operand) : bool :=
  match src, dst with
  | _, OTls => false
  | OTls, OMem _ _ _ => false
  | OMem _ _ _, OMem _ _ _ => false
  | _, _ => true
  end.

(** A move is no instruction of an architecture whose registers are
    narrower than the move. *)
Definition parse_instr (a : arch) (toks : list string) : option instr :=
  match toks with
  | [] => None
  | mn :: rest =>
      match mov_bits mn, split_comma rest with
      | Some w, Some (s, d) =>
          if (w <=? ptr_bits a)%Z then
            match parse_operand a s, parse_operand a d with
            | Some src, Some dst =>
                if operands_ok src dst then Some (Mov w src dst) else None
            | _, _ => None
            end
          else None
      | _, _ => None
      end
  end.

(** The call [get_tls(r)] in a source file: expanded, then assembled. *)
Definition get_tls (a : arch) (e : Cpp.env) (r : string) : option instr :=
  match Cpp.expand e "get_tls" [[r]] with
  | Some toks => parse_instr a toks
  | None => None
  end.


End Asm.

(** ** One thread of an x86 machine *)

Module Machine.
Import Asm.
Open Scope Z_scope.

(** Modelled from the spec: the state of one thread is its general-purpose
    registers and its Thread-Local Base Register [tls], "one instance per
    operating-system thread"; the assembler and the processor that give the
    expanded text its meaning are not part of the header. *)
Record cpu := Cpu {
  regs : reg -> Z;
  tls : Z
}.

(** Modelled from the spec: the memory in which the Task Context Slot lies
    ("a fixed byte offset from TLBR, holding a pointer-sized value"); a cell
    holds one byte. *)
Definition memory := Z -> Z.

Definition wrap (bits x : Z) : Z := x mod 2 ^ bits.

Definition set_reg (c : cpu) (r : reg) (v : Z) : cpu :=
  {| regs := fun r' => if reg_eq_dec r' r then v else regs c r';
     tls := tls c |}.

Definition upd (m : memory) (a v : Z) : memory :=
  fun x => if x =? a then v else m x.

(** Modelled from the spec: reading and writing a value of [n] bytes at
    address [a], the machine being absent from the header; the bytes are
    little-endian, as on x86, and addresses wrap at [bits]. *)
Fixpoint load (bits : Z) (m : memory) (a : Z) (n : nat) : Z :=
  match n with
  | O => 0
  | S k => m (wrap bits a) mod 256 + 256 * load bits m (a + 1) k
  end.

Fixpoint store (bits : Z) (m : memory) (a : Z) (n : nat) (v : Z) : memory :=
  match n with
  | O => m
  | S k => upd (store bits m (a + 1) k (v / 256)) (wrap bits a) (v mod 256)
  end.

Definition nbytes (bits : Z) : nat := Z.to_nat (bits / 8).

(** Modelled from the spec: the Task Context Slot is addressed by
    [offset(dest_register)], the base register plus the displacement, so the
    [TLS] index of an operand marks the reference as thread-local and adds
    nothing to the address. *)
Definition index_value (c : cpu) (ix : option (index * Z)) : Z :=
  match ix with
  | None => 0
  | Some (ITls, _) => 0
  | Some (IReg r, k) => regs c r * k
  end.

Definition ea (a : arch) (c : cpu) (d : Z) (b : reg) (ix : option (index * Z)) : Z :=
  wrap (ptr_bits a) (d + regs c b + index_value c ix).


(** Modelled from the spec: a move copies the low [w] bits of its source to
    its destination; with [TLS] as source it copies the thread's own base
    register ("load_sequence ... the minimal machine instruction(s) needed to
    copy TLBR into a target register").  [None] is an operand combination
    that is no instruction. *)
Definition exec (a : arch) (i : instr) (c : cpu) (m : memory) : option (cpu * memory) :=
  match i with
  | Mov w src dst =>
      match src, dst with
      | OTls, OReg r => Some (set_reg c r (wrap w (tls c)), m)
      | OReg r1, OReg r2 => Some (set_reg c r2 (wrap w (regs c r1)), m)
      | OMem d b ix, OReg r =>
          Some (set_reg c r (load (ptr_bits a) m (ea a c d b ix) (nbytes w)), m)
      | OReg r, OMem d b ix =>
          Some (c, store (ptr_bits a) m (ea a c d b ix) (nbytes w) (regs c r))
      | _, _ => None
      end
  end.

(** A straight-line sequence of instructions. *)
Fixpoint exec_all (a : arch) (prog : list instr) (c : cpu) (m : memory) : option (cpu * memory) :=
  match prog with
  | [] => Some (c, m)
  | i :: prog' =>
      match exec a i c m with
      | Some (c', m') => exec_all a prog' c' m'
      | None => None
      end
  end.

End Machine.

(** ** Several threads over one memory *)

Module Threads.
Import Asm Machine.

(** Modelled from the spec: "there is no shared mutable state between
    threads at this layer, only per-thread state": each thread has its own
    registers and base register, and all threads share the memory. *)
Record thread := Thread {
  t_cpu : cpu;
  t_code : list instr        (* the instructions the thread has yet to run *)
}.

Record machine := Mach {
  threads : list thread;
  mem : memory
}.

Fixpoint set_nth {A : Type} (l : list A) (i : nat) (x : A) : list A :=
  match l, i with
  | [], _ => []
  | _ :: l', O => x :: l'
  | y :: l', S i' => y :: set_nth l' i' x
  end.

(** Modelled from the spec: concurrent threads as an interleaving of single
    instructions.  Thread [i] runs its next instruction; nothing happens
    when there is no such thread, when it has finished, or when its
    instruction is none. *)
Definition step (a : arch) (M : machine) (i : nat) : machine :=
  match nth_error (threads M) i with
  | Some (Thread c (ins :: rest)) =>
      match exec a ins c (mem M) with
      | Some (c', m') => Mach (set_nth (threads M) i (Thread c' rest)) m'
      | None => M
      end
  | _ => M
  end.

(** An interleaving of the threads: [sched] names the thread that moves at
    each instant. *)
Definition run (a : arch) (M : machine) (sched : list nat) : machine :=
  fold_left (step a) sched M.

End Threads.

(** ** A macro call in a line of source *)

Module Call.
Import Cpp.

Definition next_nesting (nesting : nat) (t : string) : nat :=
  if t =? "(" then S nesting
  else if t =? ")" then pred nesting
  else nesting.

(** One argument of a call: the tokens up to the first comma or closing
    parenthesis that is not inside parentheses; with them, the token that
    ended the argument and the tokens after it.  [None]: the line ends
    first. *)
Fixpoint collect_argument (toks : list string) (nesting : nat)
  : option (list string * string * list string) :=
  match toks with
  | [] => None
  | t :: ts =>
      if (nesting =? 0)%nat && ((t =? ")") || (t =? ","))
      then Some ([], t, ts)
      else match collect_argument ts (next_nesting nesting t) with
           | Some (a, stop, rest) => Some (t :: a, stop, rest)
           | None => None
           end
  end.

(** The arguments of a call whose opening parenthesis has been read. *)
Fixpoint arguments (fuel : nat) (toks : list string)
  : option (list (list string) * list string) :=
  match fuel with
  | O => None
  | S k =>
      match collect_argument toks 0 with
      | None => None
      | Some (a, stop, rest) =>
          if stop =? ")" then Some ([a], rest)
          else match arguments k rest with
               | Some (more, rest') => Some (a :: more, rest')
               | None => None
               end
      end
  end.

Inductive outcome :=
| Expanded (text rest : list string)   (* the replacement, and the tokens after the call *)
| Kept                                 (* no parenthesis follows: the name stays *)
| WrongArgCount
| Unterminated
| NotAMacro.

(** [invoke e name toks]: the name [name] met in a line, [toks] being the
    tokens after it.  A call with nothing between its parentheses has one
    argument, the empty one. *)
Definition invoke (e : env) (name : string) (toks : list string) : outcome :=
  match lookup name e with
  | None => NotAMacro
  | Some (Macro None b) => Expanded b toks
  | Some (Macro (Some ps) b) =>
      match toks with
      | [] => Kept
      | t :: ts =>
          if t =? "(" then
            match arguments (S (length ts)) ts with
            | None => Unterminated
            | Some (args, rest) =>
                match bind ps (match ps, args with
                               | [], [[]] => []
                               | _, _ => args
                               end) with
                | Some bd => Expanded (subst bd b) rest
                | None => WrongArgCount
                end
            end
          else Kept
      end
  end.

(** The token lists that can stand as one argument: parentheses match, and
    no comma and no closing parenthesis is outside them. *)
Fixpoint is_argument (toks : list string) (nesting : nat) : bool :=
  match toks with
  | [] => (nesting =? 0)%nat
  | t :: ts =>
      if (nesting =? 0)%nat && ((t =? ")") || (t =? ","))
      then false
      else is_argument ts (next_nesting nesting t)
  end.

(** What stands where the parameter stood. *)
Definition actual (param : string) (arg : list string) : list string :=
  match arg with
  | [] => [param]
  | _ :: _ => arg
  end.

End Call.

(** ** Traps *)

Module Faults.
Import Asm Machine.
Open Scope Z_scope.

(** Modelled from the spec: the header says nothing of failure at run time;
    the spec names one way a use of the accessors can go wrong, a [g(r)]
    whose register was not loaded by [get_tls(r)], and says that the base
    register is set up before any code runs on the thread.  Here an access
    to memory traps unless each of its bytes is mapped ([mp] tells the
    mapped addresses), and a thread is set up when the bytes of its slot
    are. *)
Definition mapped_range (bits : Z) (mp : Z -> bool) (a : Z) (n : nat) : bool :=
  forallb (fun j => mp (wrap bits (a + Z.of_nat j))) (seq 0 n).


(** [None] is a trap, or an operand combination that is no instruction. *)
Definition exec_checked (a : arch) (mp : Z -> bool) (i : instr) (c : cpu) (m : memory)
  : option (cpu * memory) :=
  match i with
  | Mov w (OMem d b ix) (OReg _) | Mov w (OReg _) (OMem d b ix) =>
      if mapped_range (ptr_bits a) mp (ea a c d b ix) (nbytes w)
      then exec a i c m
      else None
  | _ => exec a i c m
  end.

Fixpoint exec_all_checked (a : arch) (mp : Z -> bool) (prog : list instr)
    (c : cpu) (m : memory) : option (cpu * memory) :=
  match prog with
  | [] => Some (c, m)
  | i :: prog' =>
      match exec_checked a mp i c m with
      | Some (c', m') => exec_all_checked a mp prog' c' m'
      | None => None
      end
  end.

End Faults.

(** ** Builds *)

(** The three macros the header can define, as its lines read. *)
Definition macro_LR : Cpp.macro := Cpp.Macro None ["R14"].

Definition macro_get_tls (a : Asm.arch) : Cpp.macro :=
  Cpp.Macro (Some ["r"])
    [match a with Asm.amd64 => "MOVQ" | Asm.i386 => "MOVL" end; "TLS"; ","; "r"].

Definition macro_g : Cpp.macro :=
  Cpp.Macro (Some ["r"]) ["0"; "("; "r"; ")"; "("; "TLS"; "*"; "1"; ")"].

(** What the header defines, by the architecture symbols of the build. *)
Definition header_defs (arm amd x86 : bool) : Cpp.env :=
  ((if arm then [("LR", macro_LR)] else [])
   ++ (if amd then [("get_tls", macro_get_tls Asm.amd64); ("g", macro_g)] else [])
   ++ (if x86 then [("get_tls", macro_get_tls Asm.i386); ("g", macro_g)] else []))%list.

(** A build for architecture [a]: its symbol is among those of the command
    line [D], and the header is accepted, leaving the macros [e]. *)
Definition build (D : list string) (a : Asm.arch) (e : Cpp.env) : Prop :=
  Cpp.predefined D (Asm.tag a) = true /\ Cpp.preprocess D go_tls_h = Cpp.OK e.

(** A build that selects none of the architectures the header knows. *)
Definition unsupported (D : list string) : Prop :=
  Cpp.predefined D "GOARCH_arm" = false
  /\ Cpp.predefined D "GOARCH_amd64" = false
  /\ Cpp.predefined D "GOARCH_386" = false.

(** The header stops the build. *)
Definition rejected (D : list string) : Prop :=
  exists err, Cpp.preprocess D go_tls_h = Cpp.Err err.


(** The mnemonic of the pointer-sized move. *)
Definition mov_ptr (a : Asm.arch) : string :=
  match a with
  | Asm.amd64 => "MOVQ"
  | Asm.i386 => "MOVL"
  end.







(** The instruction [get_tls(r)] assembles to (see [get_tls_instr]). *)
Definition load_tls (a : Asm.arch) (r : Asm.reg) : Asm.instr :=
  Asm.Mov (Asm.ptr_bits a) Asm.OTls (Asm.OReg r).


(** Sample inputs. *)
Definition env_amd64 : Cpp.env := header_defs false true false.
Definition env_386 : Cpp.env := header_defs false false true.

Definition cpu0 : Machine.cpu := Machine.Cpu (fun _ => 7%Z) 4096%Z.
Definition cpu1 : Machine.cpu := Machine.Cpu (fun _ => 9%Z) 8192%Z.
Definition mem0 : Machine.memory := fun _ => 0%Z.


(** The outcome of preprocessing the header, by the symbols of the command
    line: the three architecture symbols, and whether [LR], [get_tls] and
    [g] are defined there already.  The first definition of a name that is
    defined already stops the build. *)
Definition header_result (arm amd x86 lr gt gg : bool) : Cpp.result Cpp.env :=
  if arm && lr then Cpp.Err (Cpp.Redefinition "LR")
  else if (amd || x86) && gt then Cpp.Err (Cpp.Redefinition "get_tls")
  else if amd && gg then Cpp.Err (Cpp.Redefinition "g")
  else if amd && x86 then Cpp.Err (Cpp.Redefinition "get_tls")
  else if x86 && gg then Cpp.Err (Cpp.Redefinition "g")
  else Cpp.OK (header_defs arm amd x86).

(** The header is accepted. *)
Definition accepted (D : list string) : Prop :=
  exists e, Cpp.preprocess D go_tls_h = Cpp.OK e.


(** The macros of the build that defines the symbol of [a] and nothing
    else. *)
Definition env_of (a : Asm.arch) : Cpp.env :=
  match a with
  | Asm.amd64 => env_amd64
  | Asm.i386 => env_386
  end.

(** A thread whose slot, the eight bytes at 4096, is all that is mapped. *)
Definition map0 : Z -> bool := fun x => ((4096 <=? x) && (x <? 4104))%Z.

(** ** The file as bytes, and its inclusion *)

Definition NL : string := String (ascii_of_nat 10) EmptyString.

(** The bytes of the file: a line end between each two lines and none
    after the last [#endif]. *)
Definition go_tls_h_text : string := String.concat NL go_tls_h.

(** The lines of a text, and whether the last of them is ended. *)
Fixpoint lines_of (s cur : string) : list string * bool :=
  match s with
  | EmptyString =>
      match cur with
      | EmptyString => ([], true)
      | _ => ([cur], false)
      end
  | String c s' =>
      if (nat_of_ascii c =? 10)%nat
      then let (ls, ended) := lines_of s' EmptyString in (cur :: ls, ended)
      else lines_of s' (cur ++ String c EmptyString)
  end.

(** As [Cpp.run], stopping after the last directive: the conditionals that
    are open then, and the macros. *)
Fixpoint steps (pre : string -> bool) (ds : list Cpp.directive) (conds : list bool)
    (e : Cpp.env) : Cpp.result (list bool * Cpp.env) :=
  match ds with
  | [] => Cpp.OK (conds, e)
  | d :: ds' =>
      match d with
      | Cpp.DIfdef sym => steps pre ds' (Cpp.is_defined pre e sym :: conds) e
      | Cpp.DEndif =>
          match conds with
          | [] => Cpp.Err Cpp.EndifWithoutIf
          | _ :: cs => steps pre ds' cs e
          end
      | Cpp.DDefine name m =>
          if Cpp.active conds
          then if Cpp.is_defined pre e name
               then Cpp.Err (Cpp.Redefinition name)
               else steps pre ds' conds (e ++ [(name, m)])%list
          else steps pre ds' conds e
      | Cpp.DText _ => steps pre ds' conds e
      | Cpp.DBad => if Cpp.active conds then Cpp.Err Cpp.BadDirective else steps pre ds' conds e
      end
  end.

(** A line with no token: empty, of spaces, or a comment. *)
Definition blank (l : string) : bool :=
  match Lex.tokens l with
  | [] => true
  | _ :: _ => false
  end.

Inductive included :=
| Done (r : Cpp.result Cpp.env)   (* the rest of the including file was read *)
| ExpectedNewline                 (* the build stops: no line end after a directive *)
| NotModelled.

(** [include_then pre text rest conds e]: a file of bytes [text] is included
    where the conditionals [conds] are open and the macros are [e], and
    [rest] are the lines of the including file after the inclusion.  When
    the last line of [text] is not ended, what follows the inclusion is
    read as the end of that line: after [#endif] or [#ifdef] the line end
    must come next, so the next line of the including file must be blank,
    and is used up; there must be such a line.  Other last lines that are
    not ended are left out of the model. *)
Definition include_then (pre : string -> bool) (text : string) (rest : list string)
    (conds : list bool) (e : Cpp.env) : included :=
  let (ls, ended) := lines_of text EmptyString in
  if ended then Done (Cpp.run pre (map Cpp.parse_line (ls ++ rest)) conds e)
  else
    match steps pre (map Cpp.parse_line (removelast ls)) conds e with
    | Cpp.Err x => Done (Cpp.Err x)
    | Cpp.OK (cs, e') =>
        match Cpp.parse_line (last ls EmptyString) with
        | Cpp.DEndif | Cpp.DIfdef _ =>
            match rest with
            | [] => ExpectedNewline
            | l :: rest' =>
                if blank l
                then Done (Cpp.run pre (Cpp.parse_line (last ls EmptyString)
                                          :: map Cpp.parse_line rest') cs e')
                else ExpectedNewline
            end
        | _ => NotModelled
        end
    end.

(** ** The header, read *)

Lemma go_tls_h_directives :
  map Cpp.parse_line go_tls_h =
  [ Cpp.DText []; Cpp.DText []; Cpp.DText []; Cpp.DText [];
    Cpp.DIfdef "GOARCH_arm"; Cpp.DDefine "LR" macro_LR; Cpp.DEndif;
    Cpp.DText []; Cpp.DText [];
    Cpp.DIfdef "GOARCH_amd64";
    Cpp.DDefine "get_tls" (macro_get_tls Asm.amd64); Cpp.DDefine "g" macro_g;
    Cpp.DEndif;
    Cpp.DText []; Cpp.DText [];
    Cpp.DIfdef "GOARCH_386";
    Cpp.DDefine "get_tls" (macro_get_tls Asm.i386); Cpp.DDefine "g" macro_g;
    Cpp.DEndif ].
Proof. vm_compute. reflexivity. Qed.

(** Every accepted build: the macros are those of the selected branches, and
    the amd64 and 386 branches were not selected together. *)
Lemma preprocess_OK (D : list string) (e : Cpp.env) :
  Cpp.preprocess D go_tls_h = Cpp.OK e ->
  e = header_defs (Cpp.predefined D "GOARCH_arm") (Cpp.predefined D "GOARCH_amd64")
        (Cpp.predefined D "GOARCH_386")
  /\ Cpp.predefined D "GOARCH_amd64" && Cpp.predefined D "GOARCH_386" = false.
Proof.
  unfold Cpp.preprocess. rewrite go_tls_h_directives.
  generalize (Cpp.predefined D). intros p.
  destruct (p "GOARCH_arm") eqn:Harm; destruct (p "GOARCH_amd64") eqn:Hamd;
  destruct (p "GOARCH_386") eqn:H386;
  destruct (p "LR") eqn:HLR; destruct (p "get_tls") eqn:Hg; destruct (p "g") eqn:Hgg;
  cbn; unfold Cpp.is_defined; cbn;
  rewrite ?Harm, ?Hamd, ?H386, ?HLR, ?Hg, ?Hgg; cbn;
  try discriminate; intros H; injection H as H; subst e; split; reflexivity.
Qed.

(** With no architecture symbol of the header, no branch is taken. *)
Lemma preprocess_unsupported (D : list string) :
  unsupported D -> Cpp.preprocess D go_tls_h = Cpp.OK [].
Proof.
  intros (Harm & Hamd & H386).
  unfold Cpp.preprocess. rewrite go_tls_h_directives.
  revert Harm Hamd H386. generalize (Cpp.predefined D). intros p Harm Hamd H386.
  cbn; unfold Cpp.is_defined; cbn. rewrite Harm, Hamd, H386. reflexivity.
Qed.

Lemma build_lookup (D : list string) (a : Asm.arch) (e : Cpp.env) :
  build D a e ->
  Cpp.lookup "get_tls" e = Some (macro_get_tls a)
  /\ Cpp.lookup "g" e = Some macro_g.
Proof.
  intros [Htag Hpp]. apply preprocess_OK in Hpp. destruct Hpp as [-> Hex].
  destruct a; cbn in Htag; rewrite Htag in *;
    destruct (Cpp.predefined D "GOARCH_arm");
    [ destruct (Cpp.predefined D "GOARCH_386")
    | destruct (Cpp.predefined D "GOARCH_386")
    | destruct (Cpp.predefined D "GOARCH_amd64")
    | destruct (Cpp.predefined D "GOARCH_amd64") ];
    try discriminate; split; reflexivity.
Qed.

(** The text of the two calls, for any argument text [r]. *)
Lemma expand_get_tls (D : list string) (a : Asm.arch) (e : Cpp.env) (r : string) :
  build D a e ->
  Cpp.expand e "get_tls" [[r]] =
  Some [match a with Asm.amd64 => "MOVQ" | Asm.i386 => "MOVL" end; "TLS"; ","; r].
Proof.
  intros Hb. destruct (build_lookup D a e Hb) as [H _].
  unfold Cpp.expand. rewrite H. destruct a; reflexivity.
Qed.

Lemma expand_g (D : list string) (a : Asm.arch) (e : Cpp.env) (r : string) :
  build D a e ->
  Cpp.expand e "g" [[r]] = Some ["0"; "("; r; ")"; "("; "TLS"; "*"; "1"; ")"].
Proof.
  intros Hb. destruct (build_lookup D a e Hb) as [_ H].
  unfold Cpp.expand. rewrite H. reflexivity.
Qed.

Lemma get_tls_instr (D : list string) (a : Asm.arch) (e : Cpp.env) (r : Asm.reg) :
  build D a e -> Asm.has_reg a r = true ->
  Asm.get_tls a e (Asm.reg_name r) = Some (Asm.Mov (Asm.ptr_bits a) Asm.OTls (Asm.OReg r)).
Proof.
  intros Hb Hr. unfold Asm.get_tls. rewrite (expand_get_tls D a e _ Hb).
  destruct a, r; try discriminate Hr; reflexivity.
Qed.




(** ** Registers and memory *)

Section MachineFacts.
Import Asm Machine.
Open Scope Z_scope.

Lemma wrap_small (bits v : Z) : 0 <= v < 2 ^ bits -> wrap bits v = v.
Proof. intros H. unfold wrap. apply Z.mod_small. exact H. Qed.

Lemma ptr_bits_pos (a : arch) : 0 < ptr_bits a.
Proof. destruct a; reflexivity. Qed.

Lemma regs_set_same (c : cpu) (r : reg) (v : Z) : regs (set_reg c r v) r = v.
Proof. cbn. destruct (reg_eq_dec r r); congruence. Qed.

Lemma regs_set_other (c : cpu) (r r' : reg) (v : Z) :
  r' <> r -> regs (set_reg c r v) r' = regs c r'.
Proof. intros H. cbn. destruct (reg_eq_dec r' r); congruence. Qed.






End MachineFacts.

(** The build for one architecture symbol alone is accepted. *)
Lemma build_tag (a : Asm.arch) : build [Asm.tag a] a (env_of a).
Proof. destruct a; split; vm_compute; reflexivity. Qed.

(** ** The accessors on one thread *)

Section Accessors.
Import Asm Machine.
Open Scope Z_scope.

(** C1: on amd64 and on 386 alike, the build for the architecture is
    accepted and, in it and in every other accepted build for the
    architecture, on a thread whose base register holds [V], the
    instruction that [get_tls(r)] stands for leaves register [r] equal to
    [V]. *)
Theorem get_tls_loads_tlbr (a : arch) (r : reg) (c : cpu) (m : memory) (V : Z) :
  has_reg a r = true ->
  tls c = V -> 0 <= V < 2 ^ ptr_bits a ->
  (exists e i c',
      Cpp.preprocess [tag a] go_tls_h = Cpp.OK e
      /\ get_tls a e (reg_name r) = Some i
      /\ exec a i c m = Some (c', m)
      /\ regs c' r = V)
  /\ (forall (D : list string) (e : Cpp.env),
        build D a e ->
        exists i c', get_tls a e (reg_name r) = Some i
                     /\ exec a i c m = Some (c', m)
                     /\ regs c' r = V).
Proof.
  intros Hr Ht HV.
  assert (G : forall D e, build D a e ->
              exists i c', get_tls a e (reg_name r) = Some i
                           /\ exec a i c m = Some (c', m)
                           /\ regs c' r = V).
  { intros D e Hb.
    exists (load_tls a r), (set_reg c r (wrap (ptr_bits a) (tls c))).
    split; [apply (get_tls_instr D); assumption|].
    split; [reflexivity|].
    rewrite regs_set_same, Ht. apply wrap_small. exact HV. }
  split; [|exact G].
  destruct (G [tag a] (env_of a) (build_tag a)) as (i & c' & H).
  exists (env_of a), i, c'. split; [apply build_tag|exact H].
Qed.

Lemma get_tls_loads_tlbr_witness :
  ((exists e i c',
       Cpp.preprocess [tag amd64] go_tls_h = Cpp.OK e
       /\ get_tls amd64 e (reg_name CX) = Some i
       /\ exec amd64 i cpu0 mem0 = Some (c', mem0)
       /\ regs c' CX = 4096)
   /\ (forall (D : list string) (e : Cpp.env),
         build D amd64 e ->
         exists i c', get_tls amd64 e (reg_name CX) = Some i
                      /\ exec amd64 i cpu0 mem0 = Some (c', mem0)
                      /\ regs c' CX = 4096))
  /\ ((exists e i c',
         Cpp.preprocess [tag i386] go_tls_h = Cpp.OK e
         /\ get_tls i386 e (reg_name BX) = Some i
         /\ exec i386 i cpu1 mem0 = Some (c', mem0)
         /\ regs c' BX = 8192)
      /\ (forall (D : list string) (e : Cpp.env),
            build D i386 e ->
            exists i c', get_tls i386 e (reg_name BX) = Some i
                         /\ exec i386 i cpu1 mem0 = Some (c', mem0)
                         /\ regs c' BX = 8192)).
Proof.
  split.
  - apply (get_tls_loads_tlbr amd64 CX cpu0 mem0 4096);
      [reflexivity | reflexivity | cbn; lia].
  - apply (get_tls_loads_tlbr i386 BX cpu1 mem0 8192);
      [reflexivity | reflexivity | cbn; lia].
Defined.





(** Any number of calls of [get_tls(r)] in a row. *)
Lemma exec_all_load_tls (a : arch) (r : reg) (n : nat) :
  forall (c : cpu) (m : memory),
  exists c', exec_all a (repeat (load_tls a r) n) c m = Some (c', m)
             /\ tls c' = tls c
             /\ forall r', r' <> r -> regs c' r' = regs c r'.
Proof.
  induction n as [|k IH]; intros c m.
  - exists c. repeat split.
  - destruct (IH (set_reg c r (wrap (ptr_bits a) (tls c))) m) as (c' & Hx & Ht & Hr).
    exists c'. cbn [repeat exec_all]. unfold load_tls at 1. cbn [exec].
    split; [exact Hx|]. split; [exact Ht|].
    intros r' Hne. rewrite (Hr r' Hne). apply regs_set_other. exact Hne.
Qed.

(** C6: the instruction [get_tls(r)] stands for, run any number of times,
    leaves the memory as it was; the base register and every register other
    than [r] keep their values. *)
Theorem get_tls_writes_no_memory (D : list string) (a : arch) (e : Cpp.env) (r : reg)
    (i : instr) (n : nat) (c : cpu) (m : memory) :
  build D a e -> has_reg a r = true ->
  get_tls a e (reg_name r) = Some i ->
  exists c' m',
    exec_all a (repeat i n) c m = Some (c', m')
    /\ m' = m
    /\ tls c' = tls c
    /\ forall r', r' <> r -> regs c' r' = regs c r'.
Proof.
  intros Hb Hr Hi. rewrite (get_tls_instr D a e r Hb Hr) in Hi.
  injection Hi as <-.
  destruct (exec_all_load_tls a r n c m) as (c' & Hx & Ht & Hrs).
  exists c', m. repeat split; assumption.
Qed.

Lemma get_tls_writes_no_memory_witness :
  exists c' m',
    exec_all i386 (repeat (load_tls i386 SI) 5) cpu1 mem0 = Some (c', m')
    /\ m' = mem0
    /\ tls c' = tls cpu1
    /\ forall r', r' <> SI -> regs c' r' = regs cpu1 r'.
Proof.
  apply (get_tls_writes_no_memory ["GOARCH_386"] i386 env_386 SI (load_tls i386 SI) 5 cpu1 mem0).
  - split; vm_compute; reflexivity.
  - reflexivity.
  - vm_compute. reflexivity.
Defined.

(** C10: the build for amd64 and the build for 386 are accepted; in every
    accepted build [get_tls(r)] is [MOVQ TLS, r], a 64-bit move, on amd64
    and [MOVL TLS, r], a 32-bit move, on 386: the width of a pointer on
    each, so a base register of pointer size reaches [r] whole. *)
Theorem get_tls_pointer_width (a : arch) (r : reg) :
  has_reg a r = true ->
  (exists e, Cpp.preprocess [tag a] go_tls_h = Cpp.OK e
             /\ Cpp.lookup "get_tls" e
                = Some (Cpp.Macro (Some ["r"])
                          [match a with amd64 => "MOVQ" | i386 => "MOVL" end;
                           "TLS"; ","; "r"]))
  /\ forall (D : list string) (e : Cpp.env),
       build D a e ->
       match a with
       | amd64 =>
           Cpp.expand e "get_tls" [[reg_name r]] = Some ["MOVQ"; "TLS"; ","; reg_name r]
           /\ get_tls a e (reg_name r) = Some (Mov 64 OTls (OReg r))
           /\ ptr_bits a = 64
       | i386 =>
           Cpp.expand e "get_tls" [[reg_name r]] = Some ["MOVL"; "TLS"; ","; reg_name r]
           /\ get_tls a e (reg_name r) = Some (Mov 32 OTls (OReg r))
           /\ ptr_bits a = 32
       end
       /\ forall (c : cpu) (m : memory),
            0 <= tls c < 2 ^ ptr_bits a ->
            exists i c', get_tls a e (reg_name r) = Some i
                         /\ exec a i c m = Some (c', m)
                         /\ regs c' r = tls c.
Proof.
  intros Hr. split.
  - exists (env_of a). split; [apply build_tag|].
    destruct (build_lookup _ _ _ (build_tag a)) as [H _]. exact H.
  - intros D e Hb. split.
    + pose proof (expand_get_tls D a e (reg_name r) Hb) as Hx.
      pose proof (get_tls_instr D a e r Hb Hr) as Hi.
      destruct a; repeat split; assumption.
    + intros c m HV.
      exists (load_tls a r), (set_reg c r (wrap (ptr_bits a) (tls c))).
      split; [apply (get_tls_instr D); assumption|].
      split; [reflexivity|].
      rewrite regs_set_same. apply wrap_small. exact HV.
Qed.

Lemma get_tls_pointer_width_witness :
  ((exists e, Cpp.preprocess [tag amd64] go_tls_h = Cpp.OK e
              /\ Cpp.lookup "get_tls" e
                 = Some (Cpp.Macro (Some ["r"])
                           [match amd64 with amd64 => "MOVQ" | i386 => "MOVL" end;
                            "TLS"; ","; "r"]))
   /\ forall (D : list string) (e : Cpp.env),
        build D amd64 e ->
        match amd64 with
        | amd64 =>
            Cpp.expand e "get_tls" [[reg_name R12]] = Some ["MOVQ"; "TLS"; ","; reg_name R12]
            /\ get_tls amd64 e (reg_name R12) = Some (Mov 64 OTls (OReg R12))
            /\ ptr_bits amd64 = 64
        | i386 =>
            Cpp.expand e "get_tls" [[reg_name R12]] = Some ["MOVL"; "TLS"; ","; reg_name R12]
            /\ get_tls amd64 e (reg_name R12) = Some (Mov 32 OTls (OReg R12))
            /\ ptr_bits amd64 = 32
        end
        /\ forall (c : cpu) (m : memory),
             0 <= tls c < 2 ^ ptr_bits amd64 ->
             exists i c', get_tls amd64 e (reg_name R12) = Some i
                          /\ exec amd64 i c m = Some (c', m)
                          /\ regs c' R12 = tls c)
  /\ ((exists e, Cpp.preprocess [tag i386] go_tls_h = Cpp.OK e
              /\ Cpp.lookup "get_tls" e
                 = Some (Cpp.Macro (Some ["r"])
                           [match i386 with amd64 => "MOVQ" | i386 => "MOVL" end;
                            "TLS"; ","; "r"]))
   /\ forall (D : list string) (e : Cpp.env),
        build D i386 e ->
        match i386 with
        | amd64 =>
            Cpp.expand e "get_tls" [[reg_name SI]] = Some ["MOVQ"; "TLS"; ","; reg_name SI]
            /\ get_tls i386 e (reg_name SI) = Some (Mov 64 OTls (OReg SI))
            /\ ptr_bits i386 = 64
        | i386 =>
            Cpp.expand e "get_tls" [[reg_name SI]] = Some ["MOVL"; "TLS"; ","; reg_name SI]
            /\ get_tls i386 e (reg_name SI) = Some (Mov 32 OTls (OReg SI))
            /\ ptr_bits i386 = 32
        end
        /\ forall (c : cpu) (m : memory),
             0 <= tls c < 2 ^ ptr_bits i386 ->
             exists i c', get_tls i386 e (reg_name SI) = Some i
                          /\ exec i386 i c m = Some (c', m)
                          /\ regs c' SI = tls c).
Proof.
  split.
  - apply (get_tls_pointer_width amd64 R12). reflexivity.
  - apply (get_tls_pointer_width i386 SI). reflexivity.
Defined.

(** A narrower move would lose the high half of the base register. *)
Lemma narrow_move_truncates :
  exec amd64 (Mov 32 OTls (OReg AX)) (Cpu (fun _ => 0) (2 ^ 32 + 5)) mem0
  = Some (set_reg (Cpu (fun _ => 0) (2 ^ 32 + 5)) AX 5, mem0).
Proof. reflexivity. Qed.

(** A 64-bit move is no instruction of the 386. *)
Lemma movq_not_on_386 (r : string) :
  parse_instr i386 ["MOVQ"; "TLS"; ","; r] = None.
Proof. reflexivity. Qed.

End Accessors.

(** ** Threads *)

Section Isolation.
Import Asm Machine Threads.
Open Scope Z_scope.










End Isolation.

(** ** The architectures of the header *)

Section Architectures.
Import Asm.

(** C3, as stated, fails: a build for arm64 selects none of the header's
    architectures, and the header is accepted, with no macro defined. *)
Lemma unsupported_build_not_rejected :
  unsupported ["GOARCH_arm64"; "GOOS_linux"]
  /\ Cpp.preprocess ["GOARCH_arm64"; "GOOS_linux"] go_tls_h = Cpp.OK []
  /\ ~ rejected ["GOARCH_arm64"; "GOOS_linux"].
Proof.
  split; [repeat split|split].
  - vm_compute. reflexivity.
  - intros [err H]. vm_compute in H. discriminate H.
Qed.

(** C3, amended: a build that defines none of [GOARCH_arm], [GOARCH_amd64],
    [GOARCH_386] is not stopped by the header: the header is accepted and
    defines no macro, so that a call of [get_tls] or [g] is not expanded. *)
Theorem unsupported_build_defines_nothing (D : list string) :
  unsupported D ->
  Cpp.preprocess D go_tls_h = Cpp.OK []
  /\ ~ rejected D
  /\ forall (e : Cpp.env) (name : string) (args : list (list string)),
       Cpp.preprocess D go_tls_h = Cpp.OK e -> Cpp.expand e name args = None.
Proof.
  intros Hu. pose proof (preprocess_unsupported D Hu) as Hpp.
  split; [exact Hpp|]. split.
  - intros [err H]. rewrite Hpp in H. discriminate H.
  - intros e name args He. rewrite Hpp in He. injection He as <-. reflexivity.
Qed.

Lemma unsupported_build_defines_nothing_witness :
  Cpp.preprocess ["GOARCH_ppc64le"] go_tls_h = Cpp.OK []
  /\ ~ rejected ["GOARCH_ppc64le"]
  /\ forall (e : Cpp.env) (name : string) (args : list (list string)),
       Cpp.preprocess ["GOARCH_ppc64le"] go_tls_h = Cpp.OK e ->
       Cpp.expand e name args = None.
Proof.
  apply (unsupported_build_defines_nothing ["GOARCH_ppc64le"]).
  repeat split.
Defined.

(** C8: the build for amd64 and the build for 386 each define [get_tls]
    and [g], with one parameter; the build for arm defines [LR] as [R14]
    and neither accessor.  In every accepted build, [get_tls] and [g] are
    defined exactly when [GOARCH_amd64] or [GOARCH_386] is, and [LR]
    exactly when [GOARCH_arm] is; a build with [GOARCH_arm] and neither of
    the two gets [LR] and nothing else. *)
Theorem accessors_defined_for_amd64_and_386 (D : list string) (e : Cpp.env) :
  Cpp.preprocess D go_tls_h = Cpp.OK e ->
  Cpp.preprocess ["GOARCH_amd64"] go_tls_h
  = Cpp.OK [("get_tls", Cpp.Macro (Some ["r"]) ["MOVQ"; "TLS"; ","; "r"]);
            ("g", Cpp.Macro (Some ["r"]) ["0"; "("; "r"; ")"; "("; "TLS"; "*"; "1"; ")"])]
  /\ Cpp.preprocess ["GOARCH_386"] go_tls_h
     = Cpp.OK [("get_tls", Cpp.Macro (Some ["r"]) ["MOVL"; "TLS"; ","; "r"]);
               ("g", Cpp.Macro (Some ["r"]) ["0"; "("; "r"; ")"; "("; "TLS"; "*"; "1"; ")"])]
  /\ Cpp.preprocess ["GOARCH_arm"] go_tls_h = Cpp.OK [("LR", Cpp.Macro None ["R14"])]
  /\ (Cpp.lookup "get_tls" e <> None <->
      Cpp.predefined D "GOARCH_amd64" = true \/ Cpp.predefined D "GOARCH_386" = true)
  /\ (Cpp.lookup "g" e <> None <->
      Cpp.predefined D "GOARCH_amd64" = true \/ Cpp.predefined D "GOARCH_386" = true)
  /\ (Cpp.lookup "LR" e <> None <-> Cpp.predefined D "GOARCH_arm" = true)
  /\ (Cpp.predefined D "GOARCH_arm" = true ->
      Cpp.lookup "LR" e = Some (Cpp.Macro None ["R14"]))
  /\ (Cpp.predefined D "GOARCH_arm" = true ->
      Cpp.predefined D "GOARCH_amd64" = false ->
      Cpp.predefined D "GOARCH_386" = false ->
      e = [("LR", Cpp.Macro None ["R14"])]
      /\ Cpp.lookup "get_tls" e = None /\ Cpp.lookup "g" e = None).
Proof.
  intros Hpp.
  split; [vm_compute; reflexivity|].
  split; [vm_compute; reflexivity|].
  split; [vm_compute; reflexivity|].
  apply preprocess_OK in Hpp. destruct Hpp as [-> Hex].
  destruct (Cpp.predefined D "GOARCH_arm"), (Cpp.predefined D "GOARCH_amd64"),
    (Cpp.predefined D "GOARCH_386"); try discriminate Hex; cbn;
    repeat split; intros; try discriminate; try congruence; auto;
    match goal with
    | H : _ \/ _ |- _ => destruct H; discriminate
    end.
Qed.

(** The same, seen in a build for amd64, in one for 386 and in one for
    arm. *)
Lemma accessors_defined_for_amd64_and_386_witness :
  (Cpp.lookup "get_tls" env_amd64 <> None /\ Cpp.lookup "g" env_amd64 <> None
   /\ Cpp.lookup "LR" env_amd64 = None)
  /\ (Cpp.lookup "get_tls" env_386 <> None /\ Cpp.lookup "g" env_386 <> None
      /\ Cpp.lookup "LR" env_386 = None)
  /\ (Cpp.lookup "get_tls" [("LR", Cpp.Macro None ["R14"])] = None
      /\ Cpp.lookup "g" [("LR", Cpp.Macro None ["R14"])] = None
      /\ Cpp.lookup "LR" [("LR", Cpp.Macro None ["R14"])] = Some (Cpp.Macro None ["R14"])).
Proof.
  split; [|split].
  - destruct (accessors_defined_for_amd64_and_386 ["GOARCH_amd64"; "GOOS_linux"] env_amd64)
      as (_ & _ & _ & Hg & Hgg & _); [vm_compute; reflexivity|].
    split; [apply Hg; left; reflexivity|].
    split; [apply Hgg; left; reflexivity|reflexivity].
  - destruct (accessors_defined_for_amd64_and_386 ["GOARCH_386"] env_386)
      as (_ & _ & _ & Hg & Hgg & _); [vm_compute; reflexivity|].
    split; [apply Hg; right; reflexivity|].
    split; [apply Hgg; right; reflexivity|reflexivity].
  - destruct (accessors_defined_for_amd64_and_386 ["GOARCH_arm"] [("LR", Cpp.Macro None ["R14"])])
      as (_ & _ & _ & _ & _ & _ & HLR & Honly); [vm_compute; reflexivity|].
    destruct (Honly eq_refl eq_refl eq_refl) as (_ & H1 & H2).
    split; [exact H1|]. split; [exact H2|]. apply HLR. reflexivity.
Defined.



End Architectures.

(** ** Further properties of the header *)

Section Header.
Import Asm Machine.

(** The outcome of the header for every command line. *)
Lemma preprocess_cases (D : list string) :
  Cpp.preprocess D go_tls_h =
  header_result (Cpp.predefined D "GOARCH_arm") (Cpp.predefined D "GOARCH_amd64")
    (Cpp.predefined D "GOARCH_386") (Cpp.predefined D "LR")
    (Cpp.predefined D "get_tls") (Cpp.predefined D "g").
Proof.
  unfold Cpp.preprocess. rewrite go_tls_h_directives.
  generalize (Cpp.predefined D). intros p.
  destruct (p "GOARCH_arm") eqn:Harm; destruct (p "GOARCH_amd64") eqn:Hamd;
  destruct (p "GOARCH_386") eqn:H386;
  destruct (p "LR") eqn:HLR; destruct (p "get_tls") eqn:Hg; destruct (p "g") eqn:Hgg;
  cbn; unfold Cpp.is_defined; cbn;
  rewrite ?Harm, ?Hamd, ?H386, ?HLR, ?Hg, ?Hgg; reflexivity.
Qed.

(** X1: a build that selects both [GOARCH_amd64] and [GOARCH_386] is
    stopped by the header, with a redefinition error: neither [get_tls] is
    chosen in silence. *)
Theorem both_x86_tags_rejected (D : list string) :
  Cpp.predefined D "GOARCH_amd64" = true ->
  Cpp.predefined D "GOARCH_386" = true ->
  exists name, Cpp.preprocess D go_tls_h = Cpp.Err (Cpp.Redefinition name)
               /\ (name = "LR" \/ name = "get_tls" \/ name = "g").
Proof.
  intros Hamd H386. rewrite preprocess_cases, Hamd, H386.
  destruct (Cpp.predefined D "GOARCH_arm"), (Cpp.predefined D "LR"),
    (Cpp.predefined D "get_tls"), (Cpp.predefined D "g"); cbn;
    eexists; (split; [reflexivity|]); auto.
Qed.

Lemma both_x86_tags_rejected_witness :
  exists name,
    Cpp.preprocess ["GOARCH_amd64"; "GOARCH_386"] go_tls_h = Cpp.Err (Cpp.Redefinition name)
    /\ (name = "LR" \/ name = "get_tls" \/ name = "g").
Proof.
  apply (both_x86_tags_rejected ["GOARCH_amd64"; "GOARCH_386"]); reflexivity.
Defined.

(** X2: the header is accepted exactly when [GOARCH_amd64] and [GOARCH_386]
    are not both selected and no selected block defines a name the command
    line has defined: [LR] for arm, [get_tls] and [g] for amd64 and 386. *)
Theorem header_accepted_iff (D : list string) :
  accepted D <->
  Cpp.predefined D "GOARCH_amd64" && Cpp.predefined D "GOARCH_386" = false
  /\ Cpp.predefined D "GOARCH_arm" && Cpp.predefined D "LR" = false
  /\ (Cpp.predefined D "GOARCH_amd64" || Cpp.predefined D "GOARCH_386")
      && (Cpp.predefined D "get_tls" || Cpp.predefined D "g") = false.
Proof.
  unfold accepted. rewrite preprocess_cases.
  destruct (Cpp.predefined D "GOARCH_arm"), (Cpp.predefined D "GOARCH_amd64"),
    (Cpp.predefined D "GOARCH_386"), (Cpp.predefined D "LR"),
    (Cpp.predefined D "get_tls"), (Cpp.predefined D "g");
    unfold header_result; cbn;
    (split;
     [ intros [e He]; first [discriminate He | repeat split; reflexivity]
     | intros (H1 & H2 & H3);
       first [discriminate H1 | discriminate H2 | discriminate H3
             | eexists; reflexivity] ]).
Qed.

(** X3: the macros of an accepted build depend on the three architecture
    symbols alone: two command lines that agree on them get the same
    macros, whatever else they define. *)
Theorem macros_depend_on_arch_symbols_only (D1 D2 : list string) (e1 e2 : Cpp.env) :
  Cpp.preprocess D1 go_tls_h = Cpp.OK e1 ->
  Cpp.preprocess D2 go_tls_h = Cpp.OK e2 ->
  Cpp.predefined D1 "GOARCH_arm" = Cpp.predefined D2 "GOARCH_arm" ->
  Cpp.predefined D1 "GOARCH_amd64" = Cpp.predefined D2 "GOARCH_amd64" ->
  Cpp.predefined D1 "GOARCH_386" = Cpp.predefined D2 "GOARCH_386" ->
  e1 = e2.
Proof.
  intros H1 H2 Harm Hamd H386.
  apply preprocess_OK in H1. apply preprocess_OK in H2.
  destruct H1 as [-> _]. destruct H2 as [-> _].
  rewrite Harm, Hamd, H386. reflexivity.
Qed.

Lemma macros_depend_on_arch_symbols_only_witness :
  env_amd64 = env_amd64.
Proof.
  apply (macros_depend_on_arch_symbols_only
           ["GOARCH_amd64"] ["GOOS_linux"; "GOARCH_amd64"; "GOAMD64_v1"]
           env_amd64 env_amd64); vm_compute; reflexivity.
Defined.




(** X7: the text a call expands to holds no name of a macro of the header,
    so there is nothing in it to expand again. *)
Theorem expansion_is_final (D : list string) (a : arch) (e : Cpp.env) (r : reg)
    (toks : list string) :
  build D a e ->
  Cpp.expand e "get_tls" [[reg_name r]] = Some toks
  \/ Cpp.expand e "g" [[reg_name r]] = Some toks ->
  Forall (fun t => Cpp.lookup t e = None) toks.
Proof.
  intros Hb Hx.
  rewrite (expand_get_tls D a e _ Hb), (expand_g D a e _ Hb) in Hx.
  destruct Hb as [_ Hpp]. apply preprocess_OK in Hpp. destruct Hpp as [-> _].
  destruct Hx as [Hx|Hx]; injection Hx as <-;
    destruct (Cpp.predefined D "GOARCH_arm"), (Cpp.predefined D "GOARCH_amd64"),
      (Cpp.predefined D "GOARCH_386"), a, r;
    repeat constructor.
Qed.

Lemma expansion_is_final_witness :
  Forall (fun t => Cpp.lookup t (header_defs true true false) = None)
         ["MOVQ"; "TLS"; ","; "R14"].
Proof.
  apply (expansion_is_final ["GOARCH_arm"; "GOARCH_amd64"] amd64
           (header_defs true true false) R14).
  - split; vm_compute; reflexivity.
  - left. vm_compute. reflexivity.
Defined.

End Header.

(** ** The header in a larger file *)

Section Inclusion.
Import Asm Machine.

(** One directive at a time, the conditions decided as they come. *)
Ltac rewrite_bools :=
  repeat match goal with
         | H : _ = true |- _ => rewrite H
         | H : _ = false |- _ => rewrite H
         end.

Ltac run_directive :=
  lazymatch goal with
  | |- context [Cpp.run _ (_ :: ?ds) _ _] =>
      let t := fresh "rest" in
      let E := fresh "Erest" in
      remember ds as t eqn:E;
      cbn [Cpp.run]; unfold Cpp.is_defined, Cpp.active;
      cbn [Cpp.lookup forallb app String.eqb Ascii.eqb Bool.eqb andb orb];
      rewrite_bools;
      cbn [andb orb];
      subst t
  end.

(** The outcome of the header, for every set of predefined symbols. *)
Lemma run_cases (pre : string -> bool) :
  Cpp.run pre (map Cpp.parse_line go_tls_h) [] [] =
  header_result (pre "GOARCH_arm") (pre "GOARCH_amd64") (pre "GOARCH_386")
    (pre "LR") (pre "get_tls") (pre "g").
Proof.
  rewrite go_tls_h_directives.
  destruct (pre "GOARCH_arm") eqn:Harm; destruct (pre "GOARCH_amd64") eqn:Hamd;
  destruct (pre "GOARCH_386") eqn:H386;
  destruct (pre "LR") eqn:HLR; destruct (pre "get_tls") eqn:Hg; destruct (pre "g") eqn:Hgg;
  repeat run_directive; reflexivity.
Qed.

Ltac steps_directive :=
  lazymatch goal with
  | |- context [steps _ (_ :: ?ds) _ _] =>
      let t := fresh "rest" in
      let E := fresh "Erest" in
      remember ds as t eqn:E;
      cbn [steps]; unfold Cpp.is_defined, Cpp.active;
      cbn [Cpp.lookup forallb app String.eqb Ascii.eqb Bool.eqb andb orb];
      rewrite_bools;
      cbn [andb orb];
      subst t
  end.

(** The file is 485 bytes, its nineteen lines, and the last is not ended. *)
Lemma go_tls_h_bytes :
  String.length go_tls_h_text = 485%nat
  /\ lines_of go_tls_h_text EmptyString = (go_tls_h, false).
Proof. split; vm_compute; reflexivity. Qed.

(** The header up to its last line: the [#ifdef GOARCH_386] is still open. *)
Lemma steps_front (pre : string -> bool) (conds : list bool) :
  steps pre (map Cpp.parse_line (removelast go_tls_h)) conds []
  = if Cpp.active conds
    then match header_result (pre "GOARCH_arm") (pre "GOARCH_amd64") (pre "GOARCH_386")
                 (pre "LR") (pre "get_tls") (pre "g") with
         | Cpp.OK e => Cpp.OK (pre "GOARCH_386" :: conds, e)
         | Cpp.Err x => Cpp.Err x
         end
    else Cpp.OK (pre "GOARCH_386" :: conds, []).
Proof.
  assert (E : map Cpp.parse_line (removelast go_tls_h)
              = removelast (map Cpp.parse_line go_tls_h)) by (vm_compute; reflexivity).
  rewrite E, go_tls_h_directives. cbn [removelast]. unfold Cpp.active.
  destruct (forallb (fun b => b) conds) eqn:Hact;
  destruct (pre "GOARCH_arm") eqn:Harm; destruct (pre "GOARCH_amd64") eqn:Hamd;
  destruct (pre "GOARCH_386") eqn:H386;
  destruct (pre "LR") eqn:HLR; destruct (pre "get_tls") eqn:Hg; destruct (pre "g") eqn:Hgg;
  repeat steps_directive; reflexivity.
Qed.

(** The inclusion of the header, in every place and before every rest. *)
Lemma include_cases (pre : string -> bool) (rest : list string) (conds : list bool) :
  include_then pre go_tls_h_text rest conds []
  = match (if Cpp.active conds
           then header_result (pre "GOARCH_arm") (pre "GOARCH_amd64") (pre "GOARCH_386")
                  (pre "LR") (pre "get_tls") (pre "g")
           else Cpp.OK []) with
    | Cpp.Err x => Done (Cpp.Err x)
    | Cpp.OK e =>
        match rest with
        | [] => ExpectedNewline
        | l :: rest' =>
            if blank l then Done (Cpp.run pre (map Cpp.parse_line rest') conds e)
            else ExpectedNewline
        end
    end.
Proof.
  unfold include_then. destruct go_tls_h_bytes as [_ ->].
  rewrite steps_front.
  change (Cpp.parse_line (last go_tls_h EmptyString)) with Cpp.DEndif.
  destruct (Cpp.active conds).
  - destruct (header_result _ _ _ _ _ _) as [e|x]; [|reflexivity].
    destruct rest as [|l rest']; [reflexivity|].
    destruct (blank l); reflexivity.
  - destruct rest as [|l rest']; [reflexivity|].
    destruct (blank l); reflexivity.
Qed.



(** X9: with a blank line after the inclusion, the header leaves the
    conditionals as it found them: the lines after the blank one are read
    with the header's macros where the enclosing conditionals are all
    true, and with none where one is false; the header's own error, if
    any, stops the file first, and only where they are all true. *)
Theorem header_then_rest (pre : string -> bool) (l : string) (rest : list string)
    (conds : list bool) :
  blank l = true ->
  include_then pre go_tls_h_text (l :: rest) conds []
  = if Cpp.active conds
    then match Cpp.run pre (map Cpp.parse_line go_tls_h) [] [] with
         | Cpp.OK e => Done (Cpp.run pre (map Cpp.parse_line rest) conds e)
         | Cpp.Err err => Done (Cpp.Err err)
         end
    else Done (Cpp.run pre (map Cpp.parse_line rest) conds []).
Proof.
  intros Hl. rewrite include_cases, run_cases, Hl.
  destruct (Cpp.active conds); [|reflexivity].
  destruct (header_result _ _ _ _ _ _); reflexivity.
Qed.

Lemma header_then_rest_witness :
  include_then (Cpp.predefined ["GOARCH_386"]) go_tls_h_text
    [""; "#ifdef GOARCH_386"; "#define LR R14"; "#endif"] [] []
  = if Cpp.active []
    then match Cpp.run (Cpp.predefined ["GOARCH_386"]) (map Cpp.parse_line go_tls_h) [] [] with
         | Cpp.OK e =>
             Done (Cpp.run (Cpp.predefined ["GOARCH_386"])
                     (map Cpp.parse_line ["#ifdef GOARCH_386"; "#define LR R14"; "#endif"])
                     [] e)
         | Cpp.Err err => Done (Cpp.Err err)
         end
    else Done (Cpp.run (Cpp.predefined ["GOARCH_386"])
                 (map Cpp.parse_line ["#ifdef GOARCH_386"; "#define LR R14"; "#endif"])
                 [] []).
Proof.
  apply (header_then_rest (Cpp.predefined ["GOARCH_386"]) "").
  reflexivity.
Defined.

Open Scope Z_scope.



End Inclusion.

(** ** No failure at run time *)

Section NoTrap.
Import Asm Machine Faults.
Open Scope Z_scope.

(** What runs with the check runs the same without it. *)
Lemma exec_checked_exec (a : arch) (mp : Z -> bool) (i : instr) (c : cpu)
    (m : memory) (s : cpu * memory) :
  exec_checked a mp i c m = Some s -> exec a i c m = Some s.
Proof.
  destruct i as [w [|r1|d b ix] [|r2|d' b' ix']]; cbn [exec_checked]; try (intros H; exact H);
    destruct (mapped_range _ _ _ _); intros H; (exact H || discriminate H).
Qed.




(** The accessors used in the wrong order do trap: in [cpu0], whose [CX]
    holds 7, the load through [g(CX)] with no [get_tls(CX)] before it. *)
Lemma g_before_get_tls_traps :
  exec_all_checked amd64 map0
    [Mov 64 (OMem 0 CX (Some (ITls, 1))) (OReg AX)] cpu0 mem0 = None
  /\ exists s,
       exec_all_checked amd64 map0
         [load_tls amd64 CX; Mov 64 (OMem 0 CX (Some (ITls, 1))) (OReg AX)] cpu0 mem0
       = Some s.
Proof. split; [reflexivity|eexists; reflexivity]. Qed.

End NoTrap.

(** ** Calls of the macros *)

Section Calls.
Import Asm Call.

Lemma collect_argument_app (arg : list string) (stop : string) (rest : list string) :
  stop = ")" \/ stop = "," ->
  forall nesting,
    is_argument arg nesting = true ->
    collect_argument (arg ++ stop :: rest) nesting = Some (arg, stop, rest).
Proof.
  intros Hstop. induction arg as [|t ts IH]; intros nesting Harg; cbn in *.
  - rewrite Harg. destruct Hstop as [-> | ->]; reflexivity.
  - destruct ((nesting =? 0)%nat && ((t =? ")") || (t =? ","))); [discriminate Harg|].
    rewrite (IH _ Harg). reflexivity.
Qed.

(** X4: a call [get_tls(arg)] or [g(arg)], for every token list [arg] that
    can be an argument and whatever follows the call: the argument is put
    where [r] stands in the body, once, and the [TLS] of the body stays;
    an empty argument leaves [r] itself in the text. *)
Theorem call_puts_argument_for_r (D : list string) (a : arch) (e : Cpp.env)
    (arg rest : list string) :
  build D a e -> is_argument arg 0 = true ->
  invoke e "get_tls" ("(" :: arg ++ ")" :: rest)
  = Expanded ([mov_ptr a; "TLS"; ","] ++ actual "r" arg) rest
  /\ invoke e "g" ("(" :: arg ++ ")" :: rest)
     = Expanded (["0"; "("] ++ actual "r" arg ++ [")"; "("; "TLS"; "*"; "1"; ")"]) rest.
Proof.
  intros Hb Harg. destruct (build_lookup D a e Hb) as [Hg Hgg].
  unfold invoke. rewrite Hg, Hgg. cbn [macro_get_tls macro_g String.eqb Ascii.eqb Bool.eqb].
  cbn [arguments].
  rewrite (collect_argument_app arg ")" rest (or_introl eq_refl) 0 Harg).
  destruct a, arg as [|x xs]; cbn; rewrite ?app_nil_r; split; reflexivity.
Qed.

Lemma call_puts_argument_for_r_witness :
  (invoke env_amd64 "get_tls" ("(" :: ["CX"] ++ ")" :: [])
   = Expanded ([mov_ptr amd64; "TLS"; ","] ++ actual "r" ["CX"]) []
   /\ invoke env_amd64 "g" ("(" :: ["CX"] ++ ")" :: [])
      = Expanded (["0"; "("] ++ actual "r" ["CX"] ++ [")"; "("; "TLS"; "*"; "1"; ")"]) [])
  /\ (invoke env_386 "get_tls" ("(" :: [] ++ ")" :: [","; "AX"])
      = Expanded ([mov_ptr i386; "TLS"; ","] ++ actual "r" []) [","; "AX"]
      /\ invoke env_386 "g" ("(" :: [] ++ ")" :: [","; "AX"])
         = Expanded (["0"; "("] ++ actual "r" [] ++ [")"; "("; "TLS"; "*"; "1"; ")"])
             [","; "AX"]).
Proof.
  split.
  - apply (call_puts_argument_for_r ["GOARCH_amd64"] amd64 env_amd64 ["CX"] []).
    + split; vm_compute; reflexivity.
    + reflexivity.
  - apply (call_puts_argument_for_r ["GOARCH_386"] i386 env_386 [] [","; "AX"]).
    + split; vm_compute; reflexivity.
    + reflexivity.
Defined.

(** X5: [get_tls] and [g] take one argument: a call with two stops the
    build with a wrong argument count, and a name that no opening
    parenthesis follows is no call and stays as it is. *)
Theorem call_wrong_arity (D : list string) (a : arch) (e : Cpp.env)
    (a1 a2 rest : list string) :
  build D a e -> is_argument a1 0 = true -> is_argument a2 0 = true ->
  invoke e "get_tls" ("(" :: a1 ++ "," :: a2 ++ ")" :: rest) = WrongArgCount
  /\ invoke e "g" ("(" :: a1 ++ "," :: a2 ++ ")" :: rest) = WrongArgCount
  /\ (forall t ts, t <> "(" ->
        invoke e "get_tls" (t :: ts) = Kept /\ invoke e "g" (t :: ts) = Kept)
  /\ invoke e "get_tls" [] = Kept /\ invoke e "g" [] = Kept.
Proof.
  intros Hb H1 H2. destruct (build_lookup D a e Hb) as [Hg Hgg].
  unfold invoke. rewrite Hg, Hgg. cbn [macro_get_tls macro_g String.eqb Ascii.eqb Bool.eqb].
  assert (Hargs : arguments (S (length (a1 ++ "," :: a2 ++ ")" :: rest)))
                    (a1 ++ "," :: a2 ++ ")" :: rest) = Some ([a1; a2], rest)).
  { rewrite length_app. cbn [length]. rewrite Nat.add_succ_r. cbn [arguments].
    rewrite (collect_argument_app a1 "," _ (or_intror eq_refl) 0 H1).
    cbn [String.eqb Ascii.eqb Bool.eqb].
    rewrite (collect_argument_app a2 ")" rest (or_introl eq_refl) 0 H2).
    reflexivity. }
  rewrite Hargs. cbn.
  repeat split; try reflexivity;
    destruct (t =? "(") eqn:E; try reflexivity;
    apply String.eqb_eq in E; contradiction.
Qed.

Lemma call_wrong_arity_witness :
  invoke env_amd64 "get_tls" ("(" :: ["CX"] ++ "," :: ["AX"] ++ ")" :: []) = WrongArgCount
  /\ invoke env_amd64 "g" ("(" :: ["CX"] ++ "," :: ["AX"] ++ ")" :: []) = WrongArgCount
  /\ (forall t ts, t <> "(" ->
        invoke env_amd64 "get_tls" (t :: ts) = Kept
        /\ invoke env_amd64 "g" (t :: ts) = Kept)
  /\ invoke env_amd64 "get_tls" [] = Kept /\ invoke env_amd64 "g" [] = Kept.
Proof.
  apply (call_wrong_arity ["GOARCH_amd64"] amd64 env_amd64 ["CX"] ["AX"] []).
  - split; vm_compute; reflexivity.
  - reflexivity.
  - reflexivity.
Defined.

End Calls.
